(** * PdM-Manager: the ESP32 sensor's compiled-in configuration

    The repository's C++ sources are two variants of [credentials.h]:

    - [src/Arduino/ESP32_Sensor/credentials.h]        (module [Arduino])
    - [src/Sensor/Arduino/ESP32_Sensor/credentials.h] (module [Sensor])

    Each one is a flat list of namespace-scope declarations
    [const T name = literal;] and nothing else.  The development embeds every
    declaration under its source name, gives the declarations their meaning
    (the globals they define, on the ESP32's 32-bit [int] and
    [unsigned long]) and reads the configuration record out of the globals. *)

From Stdlib Require Import ZArith String Ascii List Lia.
From stdpp Require Import gmap strings list fin_maps.

Open Scope Z_scope.
Open Scope string_scope.

(** ** Declarations as the headers write them *)

(** The three declared types that occur in the headers. *)
Inductive ctype : Type :=
  | ConstCharPtr      (* const char*          *)
  | ConstInt          (* const int            *)
  | ConstUnsignedLong (* const unsigned long  *).

(** The two kinds of initialiser that occur: a string literal and a decimal
    integer literal. *)
Inductive literal : Type :=
  | LString (s : string)
  | LInt (z : Z).

(** One line [const T name = init;]. *)
Record decl : Type := Decl {
  d_type : ctype;
  d_name : string;
  d_init : literal
}.

(** ** Machine integers of the target

    The ESP32 is an ILP32 target: [int] and [unsigned long] are both 32 bits
    wide.  An initialiser that does not fit is converted modulo 2^32. *)

Definition int_bits : Z := 32.
Definition ulong_bits : Z := 32.

(** Conversion of an integer constant to [unsigned long]. *)
Definition to_ulong (z : Z) : Z := z mod 2 ^ ulong_bits.

(** Conversion of an integer constant to [int] (two's complement). *)
Definition to_int (z : Z) : Z :=
  (z + 2 ^ (int_bits - 1)) mod 2 ^ int_bits - 2 ^ (int_bits - 1).

(** ** Globals defined by a header *)

(** The value a global holds once initialised.  A [const char*] initialised
    from a string literal is modelled by the characters it points to. *)
Inductive value : Type :=
  | VStr (s : string)
  | VInt (z : Z)
  | VULong (z : Z).

(** Initialisation of an object of declared type [t] from a literal.  Only
    the combinations the headers use are given a meaning: a string literal
    for [const char*], an integer literal for the two integer types.  The
    null pointer constant [0], which C++ also accepts for a pointer, is
    outside the model. *)
Definition init_value (t : ctype) (l : literal) : option value :=
  match t, l with
  | ConstCharPtr, LString s => Some (VStr s)
  | ConstInt, LInt z => Some (VInt (to_int z))
  | ConstUnsignedLong, LInt z => Some (VULong (to_ulong z))
  | _, _ => None
  end.

(** Processing one declaration: the name must be new (C++ rejects a second
    definition of the same name), and it is bound to its initial value. *)
Definition declare (g : gmap string value) (d : decl) : option (gmap string value) :=
  match g !! d_name d with
  | Some _ => None
  | None =>
      match init_value (d_type d) (d_init d) with
      | Some v => Some (<[d_name d := v]> g)
      | None => None
      end
  end.

(** Processing a header: its declarations in source order. *)
Fixpoint elaborate (g : gmap string value) (ds : list decl) : option (gmap string value) :=
  match ds with
  | [] => Some g
  | d :: ds' =>
      match declare g d with
      | Some g' => elaborate g' ds'
      | None => None
      end
  end.

(** The declared type of a name in a header (first declaration of it). *)
Fixpoint declared_type (x : string) (ds : list decl) : option ctype :=
  match ds with
  | [] => None
  | d :: ds' => if decide (d_name d = x) then Some (d_type d) else declared_type x ds'
  end.

(** ** The configuration record *)

(** The sensor identifier is an [int] in one header and a [const char*] in
    the other. *)
Inductive SensorIdentifier : Type :=
  | NumericId (n : Z)
  | LabelId (s : string).

Record DeviceConfig : Type := {
  networkName : string;          (* ssid              *)
  networkSecret : string;        (* password          *)
  serverBaseUrl : string;        (* serverBaseUrl     *)
  sensorIdentifier : SensorIdentifier; (* sensorId    *)
  sampleIntervalMs : Z;          (* sampleInterval    *)
  connectionTimeoutMs : Z        (* connectionTimeout *)
}.

Definition get_string (g : gmap string value) (x : string) : option string :=
  match g !! x with
  | Some (VStr s) => Some s
  | _ => None
  end.

Definition get_ulong (g : gmap string value) (x : string) : option Z :=
  match g !! x with
  | Some (VULong z) => Some z
  | _ => None
  end.

Definition get_sensor (g : gmap string value) (x : string) : option SensorIdentifier :=
  match g !! x with
  | Some (VInt z) => Some (NumericId z)
  | Some (VStr s) => Some (LabelId s)
  | _ => None
  end.

(** Reading the six globals.  The headers contain no check of any value:
    whatever the initialisers give is what the record holds. *)
Definition read_config (g : gmap string value) : option DeviceConfig :=
  match get_string g "ssid", get_string g "password", get_string g "serverBaseUrl",
        get_sensor g "sensorId", get_ulong g "sampleInterval",
        get_ulong g "connectionTimeout" with
  | Some n, Some s, Some u, Some i, Some si, Some ct =>
      Some {| networkName := n; networkSecret := s; serverBaseUrl := u;
              sensorIdentifier := i; sampleIntervalMs := si;
              connectionTimeoutMs := ct |}
  | _, _, _, _, _, _ => None
  end.

(** [load]: the compiled-in configuration of a header.  [None] only when the
    header does not define the six constants (a name declared twice, an
    initialiser of the wrong kind, a constant missing). *)
Definition load (h : list decl) : option DeviceConfig :=
  match elaborate ∅ h with
  | Some g => read_config g
  | None => None
  end.

(** ** The two headers *)

(** [src/Arduino/ESP32_Sensor/credentials.h], lines 10 to 26.  Line 15 of the
    file, a second [serverBaseUrl] with a public address, is a comment and
    declares nothing. *)
Module Arduino.

Definition ssid : decl := Decl ConstCharPtr "ssid" (LString "A55").

Definition password : decl := Decl ConstCharPtr "password" (LString "mukava123").

Definition serverBaseUrl : decl :=
  Decl ConstCharPtr "serverBaseUrl" (LString "http://192.168.1.11:8000").

Definition sensorId : decl := Decl ConstInt "sensorId" (LInt 1).

Definition sampleInterval : decl :=
  Decl ConstUnsignedLong "sampleInterval" (LInt 10000).

Definition connectionTimeout : decl :=
  Decl ConstUnsignedLong "connectionTimeout" (LInt 15000).

Definition credentials_h : list decl :=
  [ssid; password; serverBaseUrl; sensorId; sampleInterval; connectionTimeout].

End Arduino.

(** [src/Sensor/Arduino/ESP32_Sensor/credentials.h], lines 6 to 20. *)
Module Sensor.

Definition ssid : decl := Decl ConstCharPtr "ssid" (LString "servo").

Definition password : decl := Decl ConstCharPtr "password" (LString "servoapi24").

Definition serverBaseUrl : decl :=
  Decl ConstCharPtr "serverBaseUrl" (LString "http://127.0.0.1:8000").

Definition sensorId : decl := Decl ConstCharPtr "sensorId" (LString "ESP32_001").

Definition sampleInterval : decl :=
  Decl ConstUnsignedLong "sampleInterval" (LInt 5000).

Definition connectionTimeout : decl :=
  Decl ConstUnsignedLong "connectionTimeout" (LInt 10000).

Definition credentials_h : list decl :=
  [ssid; password; serverBaseUrl; sensorId; sampleInterval; connectionTimeout].

End Sensor.

(** Every configuration instance present in the source. *)
Definition source_variants : list (list decl) :=
  [Arduino.credentials_h; Sensor.credentials_h].

(** ** The header with other values in place

    Both files are the same six declarations in the same order and differ in
    the initialisers (and in the declared type of [sensorId]).  [credentials]
    is that common shape with the initialisers left open: the header obtained
    by editing values in place, which is how the firmware is reconfigured. *)

Definition sensor_decl (i : SensorIdentifier) : decl :=
  match i with
  | NumericId n => Decl ConstInt "sensorId" (LInt n)
  | LabelId s => Decl ConstCharPtr "sensorId" (LString s)
  end.

Definition credentials (n s u : string) (i : SensorIdentifier) (si ct : Z)
  : list decl :=
  [ Decl ConstCharPtr "ssid" (LString n);
    Decl ConstCharPtr "password" (LString s);
    Decl ConstCharPtr "serverBaseUrl" (LString u);
    sensor_decl i;
    Decl ConstUnsignedLong "sampleInterval" (LInt si);
    Decl ConstUnsignedLong "connectionTimeout" (LInt ct) ].

(** What the global [sensorId] holds for a written identifier. *)
Definition stored_sensor (i : SensorIdentifier) : SensorIdentifier :=
  match i with
  | NumericId n => NumericId (to_int n)
  | LabelId s => LabelId s
  end.

(** ** Well-formed URIs

    The headers contain no URI code; [serverBaseUrl] is only data.  The
    predicate below is the property stated of that data: the generic syntax
    of RFC 3986 for a URI with an authority,

      scheme "://" host [ ":" port ] path-abempty [ "?" query ] [ "#" fragment ]

    with [scheme = ALPHA *( ALPHA / DIGIT / "+" / "-" / "." )], a host made of
    unreserved characters and sub-delimiters (registered names and dotted
    IPv4 addresses) and a port made of digits.  User information,
    percent-escapes and bracketed IP literals are rejected, so every string
    accepted here is a URI of the RFC. *)
Module Uri.

Record t : Type := {
  scheme : string;
  host : string;
  port : option Z;
  rest : string      (* path, query and fragment, unparsed *)
}.

Definition code (c : ascii) : Z := Z.of_N (N_of_ascii c).

Definition one_of (cs : string) (c : ascii) : bool :=
  existsb (Ascii.eqb c) (list_ascii_of_string cs).

Definition is_alpha (c : ascii) : bool :=
  ((65 <=? code c)%Z && (code c <=? 90)%Z) || ((97 <=? code c)%Z && (code c <=? 122)%Z).

Definition is_digit (c : ascii) : bool :=
  (48 <=? code c)%Z && (code c <=? 57)%Z.

Definition is_scheme_char (c : ascii) : bool :=
  is_alpha c || is_digit c || one_of "+-." c.

Definition is_unreserved (c : ascii) : bool :=
  is_alpha c || is_digit c || one_of "-._~" c.

Definition is_sub_delim (c : ascii) : bool :=
  one_of "!$&'()*+,;=" c.

Definition is_host_char (c : ascii) : bool :=
  is_unreserved c || is_sub_delim c.

(** Characters of a path followed by a query. *)
Definition is_path_query_char (c : ascii) : bool :=
  is_unreserved c || is_sub_delim c || one_of ":@/?" c.

(** The longest prefix whose characters satisfy [p], and what follows it. *)
Fixpoint span (p : ascii -> bool) (s : string) : string * string :=
  match s with
  | EmptyString => (EmptyString, EmptyString)
  | String c s' =>
      if p c then
        let (a, b) := span p s' in (String c a, b)
      else (EmptyString, s)
  end.

Fixpoint all_chars (p : ascii -> bool) (s : string) : bool :=
  match s with
  | EmptyString => true
  | String c s' => p c && all_chars p s'
  end.

Fixpoint strip_prefix (p s : string) : option string :=
  match p, s with
  | EmptyString, _ => Some s
  | String a p', String b s' => if Ascii.eqb a b then strip_prefix p' s' else None
  | String _ _, EmptyString => None
  end.

(** Value of a string of decimal digits, most significant first. *)
Fixpoint digits_value (acc : Z) (s : string) : Z :=
  match s with
  | EmptyString => acc
  | String c s' => digits_value (10 * acc + (code c - 48)) s'
  end.

(** Nothing after the host, or [":"] and a port (which the RFC allows to be
    empty). *)
Definition parse_port (s : string) : option (option Z) :=
  match s with
  | EmptyString => Some None
  | String c EmptyString => if Ascii.eqb c ":" then Some None else None
  | String c p =>
      if Ascii.eqb c ":" && all_chars is_digit p
      then Some (Some (digits_value 0 p))
      else None
  end.

(** Path, query and fragment: nothing, or a part made of path and query
    characters, optionally followed by ["#"] and a fragment of the same
    characters. *)
Definition rest_ok (s : string) : bool :=
  let (pq, fr) := span is_path_query_char s in
  match fr with
  | EmptyString => true
  | String c f => Ascii.eqb c "#" && all_chars is_path_query_char f
  end.

Definition parse (s : string) : option t :=
  let (sch, after_scheme) := span is_scheme_char s in
  match sch with
  | EmptyString => None
  | String c0 _ =>
      if is_alpha c0 then
        match strip_prefix "://" after_scheme with
        | None => None
        | Some after_slashes =>
            let (authority, r) := span (fun c => negb (one_of "/?#" c)) after_slashes in
            let (h, after_host) := span is_host_char authority in
            match parse_port after_host with
            | None => None
            | Some p =>
                if rest_ok r
                then Some {| scheme := sch; host := h; port := p; rest := r |}
                else None
            end
        end
      else None
  end.

(** Well-formed with a non-empty scheme and a non-empty host. *)
Definition well_formed (s : string) : Prop :=
  exists u, parse s = Some u /\ scheme u <> EmptyString /\ host u <> EmptyString.

End Uri.

(** ** Include guards

    Both files wrap their declarations in

      #ifndef CREDENTIALS_H
      #define CREDENTIALS_H
      ...
      #endif

    (first header lines 6, 7 and 28; second header lines 1, 2 and 21). *)

(** A header file: the macro of its guard and the declarations it wraps. *)
Record header_file : Type := HeaderFile {
  guard_macro : string;
  body : list decl
}.

(** What the preprocessor has produced so far: the macros defined and the
    declarations handed to the compiler. *)
Record translation_unit : Type := TranslationUnit {
  macros : gset string;
  decls : list decl
}.

Definition empty_unit : translation_unit :=
  {| macros := ∅; decls := [] |}.

(** [#include] of a guarded header: skipped to [#endif] when the macro is
    already defined; otherwise the macro is defined and the declarations
    follow those already there. *)
Definition include_header (f : header_file) (u : translation_unit) : translation_unit :=
  if decide (guard_macro f ∈ macros u) then u
  else {| macros := {[ guard_macro f ]} ∪ macros u;
          decls := decls u ++ body f |}.

Definition Arduino_credentials : header_file :=
  {| guard_macro := "CREDENTIALS_H"; body := Arduino.credentials_h |}.

Definition Sensor_credentials : header_file :=
  {| guard_macro := "CREDENTIALS_H"; body := Sensor.credentials_h |}.

(** ** Ranges of the declared types *)

(** What an object of each declared type can hold on the target. *)
Definition in_range (v : value) : Prop :=
  match v with
  | VStr _ => True
  | VInt z => - 2 ^ (int_bits - 1) <= z < 2 ^ (int_bits - 1)
  | VULong z => 0 <= z < 2 ^ ulong_bits
  end.

(** ** Code that uses the constants

    The headers contain no statement.  What code that includes them may do
    to a global is fixed by its declared type:

    - [const int] and [const unsigned long] declare const objects: an
      assignment to one is rejected by the compiler;
    - [const char*] declares a pointer to const characters: a write through
      it is rejected, but the pointer itself is not const, and
      [ssid = "...";] is accepted and makes it point to another string.

    Casts are left out: writing to a const object through one is undefined
    behaviour. *)

Inductive stmt : Type :=
  | SRead (x : string)                           (* a use of x  *)
  | SAssign (x : string) (l : literal)           (* x = l;      *)
  | SStoreChar (x : string) (i : Z) (c : ascii)  (* x[i] = c;   *).

(** One statement over the globals of header [h]: [None] when the compiler
    rejects it.  As for initialisers, a pointer is only given string
    literals. *)
Definition step (h : list decl) (g : gmap string value) (s : stmt)
  : option (gmap string value) :=
  match s with
  | SRead x =>
      match declared_type x h with
      | Some _ => Some g
      | None => None
      end
  | SAssign x l =>
      match declared_type x h with
      | Some ConstCharPtr =>
          match init_value ConstCharPtr l with
          | Some v => Some (<[x := v]> g)
          | None => None
          end
      | Some ConstInt => None
      | Some ConstUnsignedLong => None
      | None => None
      end
  | SStoreChar _ _ _ => None
  end.

(** A sequence of statements, in order. *)
Fixpoint run (h : list decl) (g : gmap string value) (p : list stmt)
  : option (gmap string value) :=
  match p with
  | [] => Some g
  | s :: p' =>
      match step h g s with
      | Some g' => run h g' p'
      | None => None
      end
  end.


(** The globals of header [h] after the statements [p]. *)
Definition run_after (h : list decl) (p : list stmt) : option (gmap string value) :=
  match elaborate ∅ h with
  | Some g => run h g p
  | None => None
  end.

(** The configuration read after the statements [p]. *)
Definition load_after (h : list decl) (p : list stmt) : option DeviceConfig :=
  match run_after h p with
  | Some g => read_config g
  | None => None
  end.


(** Closed goals about a concrete header are settled by running it. *)
Ltac run_load := vm_compute; reflexivity.

(** * Properties of the embedded headers *)

(** ** Elaboration: a global is bound once and keeps its value *)

Section Elaboration.

Implicit Types (g : gmap string value) (d : decl) (ds : list decl).

Lemma declare_fresh g d g' :
  declare g d = Some g' -> g !! d_name d = None.
Proof.
  unfold declare. destruct (g !! d_name d); [discriminate | reflexivity].
Qed.

Lemma declare_binds g d g' :
  declare g d = Some g' -> is_Some (g' !! d_name d).
Proof.
  unfold declare. destruct (g !! d_name d); [discriminate |].
  destruct (init_value (d_type d) (d_init d)) as [v|]; [| discriminate].
  intros [= <-]. exists v. apply lookup_insert_eq.
Qed.

(** A declaration leaves every global that already exists as it is. *)
Lemma declare_frame g d g' x v :
  declare g d = Some g' -> g !! x = Some v -> g' !! x = Some v.
Proof.
  intros Hd Hx. pose proof (declare_fresh _ _ _ Hd) as Hfresh.
  revert Hd. unfold declare. rewrite Hfresh.
  destruct (init_value (d_type d) (d_init d)) as [w|]; [| discriminate].
  intros [= <-]. rewrite lookup_insert_ne; [exact Hx |].
  intros Heq. rewrite Heq in Hfresh. congruence.
Qed.

Lemma elaborate_frame ds : forall g g' x v,
  elaborate g ds = Some g' -> g !! x = Some v -> g' !! x = Some v.
Proof.
  induction ds as [| d ds IH]; simpl; intros g g' x v He Hx.
  - congruence.
  - destruct (declare g d) as [g1|] eqn:Hd; [| discriminate].
    eapply IH; [exact He |]. eapply declare_frame; eassumption.
Qed.

Lemma elaborate_app pre : forall g post,
  elaborate g (pre ++ post) =
  match elaborate g pre with
  | Some g1 => elaborate g1 post
  | None => None
  end.
Proof.
  induction pre as [| d pre IH]; simpl; intros g post; [reflexivity |].
  destruct (declare g d); [apply IH | reflexivity].
Qed.

(** None of the names a header declares existed before it. *)
Lemma elaborate_fresh ds : forall g g',
  elaborate g ds = Some g' -> Forall (fun d => g !! d_name d = None) ds.
Proof.
  induction ds as [| d ds IH]; simpl; intros g g' He; [constructor |].
  destruct (declare g d) as [g1|] eqn:Hd; [| discriminate].
  constructor; [eapply declare_fresh; eassumption |].
  specialize (IH _ _ He). eapply Forall_impl; [exact IH |].
  intros d' Hnone. simpl in Hnone.
  destruct (g !! d_name d') as [v|] eqn:Hg; [| reflexivity].
  rewrite (declare_frame _ _ _ _ _ Hd Hg) in Hnone. discriminate.
Qed.

(** A header that elaborates declares each of its names once. *)
Lemma elaborate_NoDup ds : forall g g',
  elaborate g ds = Some g' -> NoDup (d_name <$> ds).
Proof.
  induction ds as [| d ds IH]; simpl; intros g g' He; [constructor |].
  destruct (declare g d) as [g1|] eqn:Hd; [| discriminate].
  constructor; [| eapply IH; eassumption].
  intros Hin. apply list_elem_of_fmap in Hin as (d' & Heq & Hd').
  pose proof (elaborate_fresh _ _ _ He) as Hfresh.
  rewrite Forall_forall in Hfresh. specialize (Hfresh _ Hd').
  destruct (declare_binds _ _ _ Hd) as [v Hv].
  rewrite Heq in Hv. simpl in Hfresh. congruence.
Qed.

End Elaboration.

(** ** Loading a header of the source's shape *)

Lemma Arduino_shape :
  Arduino.credentials_h =
  credentials "A55" "mukava123" "http://192.168.1.11:8000" (NumericId 1) 10000 15000.
Proof. reflexivity. Qed.

Lemma Sensor_shape :
  Sensor.credentials_h =
  credentials "servo" "servoapi24" "http://127.0.0.1:8000" (LabelId "ESP32_001") 5000 10000.
Proof. reflexivity. Qed.

(** Whatever the six initialisers are, the header loads, and the record holds
    them as converted to the declared types: nothing is checked. *)
Lemma load_credentials n s u i si ct :
  load (credentials n s u i si ct) =
  Some {| networkName := n; networkSecret := s; serverBaseUrl := u;
          sensorIdentifier := stored_sensor i;
          sampleIntervalMs := to_ulong si;
          connectionTimeoutMs := to_ulong ct |}.
Proof.
  unfold load, credentials, elaborate, declare.
  destruct i; simpl; simplify_map_eq.
  all: unfold read_config, get_string, get_sensor, get_ulong;
    simplify_map_eq; reflexivity.
Qed.

Lemma load_Arduino :
  load Arduino.credentials_h =
  Some {| networkName := "A55"; networkSecret := "mukava123";
          serverBaseUrl := "http://192.168.1.11:8000";
          sensorIdentifier := NumericId 1;
          sampleIntervalMs := 10000; connectionTimeoutMs := 15000 |}.
Proof. rewrite Arduino_shape, load_credentials. reflexivity. Qed.

Lemma load_Sensor :
  load Sensor.credentials_h =
  Some {| networkName := "servo"; networkSecret := "servoapi24";
          serverBaseUrl := "http://127.0.0.1:8000";
          sensorIdentifier := LabelId "ESP32_001";
          sampleIntervalMs := 5000; connectionTimeoutMs := 10000 |}.
Proof. run_load. Qed.

Lemma source_variants_inv (h : list decl) :
  h ∈ source_variants -> h = Arduino.credentials_h \/ h = Sensor.credentials_h.
Proof.
  unfold source_variants. intros Hin.
  apply elem_of_cons in Hin as [-> | Hin]; [left; reflexivity |].
  apply elem_of_cons in Hin as [-> | Hin]; [right; reflexivity |].
  inversion Hin.
Qed.

(** ** Sanity checks of the model *)

(** Were line 15 of the first header not a comment, [serverBaseUrl] would be
    defined twice and the header would define no configuration. *)
Example redefinition_rejected :
  load (Decl ConstCharPtr "serverBaseUrl" (LString "http://191.98.43.133:8000")
        :: Arduino.credentials_h) = None.
Proof. run_load. Qed.

(** A header that leaves a constant out defines no configuration. *)
Example missing_constant_rejected :
  load [Sensor.ssid; Sensor.password; Sensor.serverBaseUrl; Sensor.sensorId;
        Sensor.sampleInterval] = None.
Proof. run_load. Qed.

(** Conversions wrap at 32 bits. *)
Example to_ulong_wraps :
  to_ulong 4294967296 = 0 /\ to_ulong (-1) = 4294967295 /\
  to_int 2147483648 = -2147483648 /\ to_int 1 = 1.
Proof. repeat split. Qed.

(** The URI predicate does reject: no scheme, no authority, an empty host,
    a port that is not a number, user information. *)
Example uri_rejects :
  Uri.parse "192.168.1.11:8000" = None /\
  Uri.parse "http:/192.168.1.11" = None /\
  Uri.parse "http://192.168.1.11:80a0" = None /\
  Uri.parse "http://user@192.168.1.11" = None /\
  ~ Uri.well_formed "http://:8000".
Proof.
  repeat split; try (vm_compute; reflexivity).
  intros (u & Hu & _ & Hhost). apply Hhost.
  assert (Hp : Uri.parse "http://:8000" =
    Some {| Uri.scheme := "http"; Uri.host := ""; Uri.port := Some 8000;
            Uri.rest := "" |}) by (vm_compute; reflexivity).
  rewrite Hp in Hu. injection Hu as <-. reflexivity.
Qed.

(** It accepts paths, queries and fragments after the authority. *)
Example uri_accepts_path :
  Uri.parse "http://pdm.example.org/api/sensor_data?id=1#top" =
  Some {| Uri.scheme := "http"; Uri.host := "pdm.example.org"; Uri.port := None;
          Uri.rest := "/api/sensor_data?id=1#top" |}.
Proof. vm_compute. reflexivity. Qed.

(** ** The claims *)

(** C1: for the first source variant, [load] returns exactly the record
    networkName = "A55", networkSecret = "mukava123",
    serverBaseUrl = "http://192.168.1.11:8000", sensorIdentifier = 1,
    sampleIntervalMs = 10000, connectionTimeoutMs = 15000, and no error. *)
Theorem load_first_variant :
  load Arduino.credentials_h =
  Some {| networkName := "A55";
          networkSecret := "mukava123";
          serverBaseUrl := "http://192.168.1.11:8000";
          sensorIdentifier := NumericId 1;
          sampleIntervalMs := 10000;
          connectionTimeoutMs := 15000 |}.
Proof. run_load. Qed.

(** C2: the two source variants disagree on the representation of the sensor
    identifier.  The first declares [sensorId] as [const int], the second as
    [const char*]; the declared types differ, the first record holds a
    numeric identifier and the second a string label, so the two fields, and
    with them the two records, are not equal. *)
Theorem sensorId_representation_differs :
  declared_type "sensorId" Arduino.credentials_h = Some ConstInt /\
  declared_type "sensorId" Sensor.credentials_h = Some ConstCharPtr /\
  declared_type "sensorId" Arduino.credentials_h <>
    declared_type "sensorId" Sensor.credentials_h /\
  exists c1 c2 n l,
    load Arduino.credentials_h = Some c1 /\
    load Sensor.credentials_h = Some c2 /\
    sensorIdentifier c1 = NumericId n /\
    sensorIdentifier c2 = LabelId l /\
    sensorIdentifier c1 <> sensorIdentifier c2 /\
    c1 <> c2.
Proof.
  repeat split; try discriminate.
  eexists _, _, 1, "ESP32_001".
  rewrite load_Arduino, load_Sensor.
  repeat split; simpl; discriminate.
Qed.

(** C3: for every configuration instance present in the source (both
    variants), the header loads and sampleIntervalMs > 0 and
    connectionTimeoutMs > 0. *)
Theorem intervals_positive (h : list decl) :
  h ∈ source_variants ->
  exists c, load h = Some c /\ 0 < sampleIntervalMs c /\ 0 < connectionTimeoutMs c.
Proof.
  intros Hin. destruct (source_variants_inv h Hin) as [-> | ->].
  - eexists. split; [apply load_Arduino |]. simpl. lia.
  - eexists. split; [apply load_Sensor |]. simpl. lia.
Qed.

Lemma intervals_positive_witness :
  Sensor.credentials_h ∈ source_variants /\
  exists c, load Sensor.credentials_h = Some c /\
            0 < sampleIntervalMs c /\ 0 < connectionTimeoutMs c.
Proof.
  split.
  - right. left.
  - apply (intervals_positive Sensor.credentials_h). right. left.
Defined.

(** C4: for every configuration instance in the source, serverBaseUrl parses
    as a well-formed URI with a non-empty scheme and a non-empty host; the
    two instances are http://192.168.1.11:8000 and http://127.0.0.1:8000. *)
Theorem serverBaseUrl_well_formed :
  Forall (fun h => exists c, load h = Some c /\ Uri.well_formed (serverBaseUrl c))
         source_variants /\
  (fun h => serverBaseUrl <$> load h) <$> source_variants =
    [Some "http://192.168.1.11:8000"; Some "http://127.0.0.1:8000"] /\
  Uri.parse "http://192.168.1.11:8000" =
    Some {| Uri.scheme := "http"; Uri.host := "192.168.1.11";
            Uri.port := Some 8000; Uri.rest := "" |} /\
  Uri.parse "http://127.0.0.1:8000" =
    Some {| Uri.scheme := "http"; Uri.host := "127.0.0.1";
            Uri.port := Some 8000; Uri.rest := "" |}.
Proof.
  assert (Hp1 : Uri.parse "http://192.168.1.11:8000" =
    Some {| Uri.scheme := "http"; Uri.host := "192.168.1.11";
            Uri.port := Some 8000; Uri.rest := "" |}) by (vm_compute; reflexivity).
  assert (Hp2 : Uri.parse "http://127.0.0.1:8000" =
    Some {| Uri.scheme := "http"; Uri.host := "127.0.0.1";
            Uri.port := Some 8000; Uri.rest := "" |}) by (vm_compute; reflexivity).
  split; [| split; [| split; assumption]].
  - unfold source_variants. repeat constructor.
    + eexists. split; [apply load_Arduino |]. simpl.
      eexists. split; [exact Hp1 |]. split; discriminate.
    + eexists. split; [apply load_Sensor |]. simpl.
      eexists. split; [exact Hp2 |]. split; discriminate.
  - unfold source_variants. simpl. rewrite load_Arduino, load_Sensor. reflexivity.
Qed.

(** C5: for every configuration instance in the source (both variants),
    networkName (ssid) and networkSecret (password) are non-empty strings. *)
Theorem network_credentials_nonempty :
  Forall (fun h => exists c, load h = Some c /\
                             networkName c <> "" /\ networkSecret c <> "")
         source_variants.
Proof.
  unfold source_variants. repeat constructor.
  - eexists. split; [apply load_Arduino |]. split; discriminate.
  - eexists. split; [apply load_Sensor |]. split; discriminate.
Qed.

(** C6, as stated, fails: the first header with [sampleInterval] set to 0 is
    loaded, and the record returned has sampleIntervalMs = 0. *)
Lemma zero_interval_is_loaded :
  load [ Arduino.ssid; Arduino.password; Arduino.serverBaseUrl; Arduino.sensorId;
         Decl ConstUnsignedLong "sampleInterval" (LInt 0);
         Arduino.connectionTimeout ] =
  Some {| networkName := "A55";
          networkSecret := "mukava123";
          serverBaseUrl := "http://192.168.1.11:8000";
          sensorIdentifier := NumericId 1;
          sampleIntervalMs := 0;
          connectionTimeoutMs := 15000 |}.
Proof. run_load. Qed.

(** C6, amended: if the configuration has sampleIntervalMs = 0 (the
    initialiser of [sampleInterval] is 0 as an [unsigned long]), [load]
    returns the record as written, with sampleIntervalMs = 0; the headers
    check nothing and no error is signalled. *)
Theorem zero_interval_not_rejected (n s u : string) (i : SensorIdentifier) (si ct : Z) :
  to_ulong si = 0 ->
  load (credentials n s u i si ct) =
  Some {| networkName := n; networkSecret := s; serverBaseUrl := u;
          sensorIdentifier := stored_sensor i;
          sampleIntervalMs := 0;
          connectionTimeoutMs := to_ulong ct |}.
Proof. intros Hz. rewrite load_credentials, Hz. reflexivity. Qed.

Lemma zero_interval_not_rejected_witness :
  to_ulong 0 = 0 /\
  load (credentials "servo" "servoapi24" "http://127.0.0.1:8000"
                    (LabelId "ESP32_001") 0 10000) =
  Some {| networkName := "servo"; networkSecret := "servoapi24";
          serverBaseUrl := "http://127.0.0.1:8000";
          sensorIdentifier := LabelId "ESP32_001";
          sampleIntervalMs := 0;
          connectionTimeoutMs := 10000 |}.
Proof.
  split; [reflexivity |].
  apply (zero_interval_not_rejected "servo" "servoapi24" "http://127.0.0.1:8000"
           (LabelId "ESP32_001") 0 10000).
  reflexivity.
Defined.

(** C7, as stated, fails: the second header with [sensorId] set to the empty
    string is loaded, and the record returned has the empty label as its
    sensor identifier. *)
Lemma empty_label_is_loaded :
  load [ Sensor.ssid; Sensor.password; Sensor.serverBaseUrl;
         Decl ConstCharPtr "sensorId" (LString "");
         Sensor.sampleInterval; Sensor.connectionTimeout ] =
  Some {| networkName := "servo";
          networkSecret := "servoapi24";
          serverBaseUrl := "http://127.0.0.1:8000";
          sensorIdentifier := LabelId "";
          sampleIntervalMs := 5000;
          connectionTimeoutMs := 10000 |}.
Proof. run_load. Qed.

(** C7, amended: if the configuration has an empty-string sensorIdentifier,
    [load] returns the record as written, with the empty string as its
    sensor identifier; the headers check nothing and no error is
    signalled. *)
Theorem empty_label_not_rejected (n s u : string) (si ct : Z) :
  load (credentials n s u (LabelId "") si ct) =
  Some {| networkName := n; networkSecret := s; serverBaseUrl := u;
          sensorIdentifier := LabelId "";
          sampleIntervalMs := to_ulong si;
          connectionTimeoutMs := to_ulong ct |}.
Proof. apply load_credentials. Qed.

(** C10: for the second source variant, [load] returns exactly the record
    networkName = "servo", networkSecret = "servoapi24",
    serverBaseUrl = "http://127.0.0.1:8000", sensorIdentifier = "ESP32_001",
    sampleIntervalMs = 5000, connectionTimeoutMs = 10000; and the two
    variants differ in the value of every field. *)
Theorem load_second_variant :
  load Sensor.credentials_h =
  Some {| networkName := "servo";
          networkSecret := "servoapi24";
          serverBaseUrl := "http://127.0.0.1:8000";
          sensorIdentifier := LabelId "ESP32_001";
          sampleIntervalMs := 5000;
          connectionTimeoutMs := 10000 |} /\
  exists c1 c2,
    load Arduino.credentials_h = Some c1 /\
    load Sensor.credentials_h = Some c2 /\
    networkName c1 <> networkName c2 /\
    networkSecret c1 <> networkSecret c2 /\
    serverBaseUrl c1 <> serverBaseUrl c2 /\
    sensorIdentifier c1 <> sensorIdentifier c2 /\
    sampleIntervalMs c1 <> sampleIntervalMs c2 /\
    connectionTimeoutMs c1 <> connectionTimeoutMs c2.
Proof.
  split; [run_load |].
  eexists _, _. rewrite load_Arduino, load_Sensor.
  repeat split; simpl; discriminate.
Qed.

(** * Further properties of the headers *)

(** ** Include guards *)

Section Guards.

Implicit Types (f : header_file) (u : translation_unit).

(** Once a header has been included, including any header with the same
    guard changes nothing. *)
Lemma include_header_guarded f1 f2 u :
  guard_macro f1 = guard_macro f2 ->
  include_header f2 (include_header f1 u) = include_header f1 u.
Proof.
  intros Hg. unfold include_header at 2 3.
  destruct (decide (guard_macro f1 ∈ macros u)) as [Hin | Hnin].
  - unfold include_header. rewrite <- Hg. rewrite decide_True; [reflexivity | exact Hin].
  - unfold include_header. simpl. rewrite decide_True; [reflexivity |].
    rewrite <- Hg. set_solver.
Qed.

Lemma include_header_empty f :
  include_header f empty_unit =
  {| macros := {[ guard_macro f ]}; decls := body f |}.
Proof.
  unfold include_header, empty_unit. simpl.
  rewrite decide_False; [| set_solver].
  f_equal. apply (right_id_L ∅ (∪)).
Qed.

End Guards.

(** X1: a guarded header included any number of times, at least once, gives
    the translation unit that one inclusion gives: its declarations once. *)
Theorem repeated_inclusion_defines_once (f : header_file) (n : nat) :
  (0 < n)%nat ->
  Nat.iter n (include_header f) empty_unit = include_header f empty_unit /\
  decls (Nat.iter n (include_header f) empty_unit) = body f.
Proof.
  intros Hn.
  assert (Hiter : Nat.iter n (include_header f) empty_unit = include_header f empty_unit).
  { destruct n as [| n]; [lia |]. clear Hn.
    induction n as [| n IH]; [reflexivity |].
    change (Nat.iter (S (S n)) (include_header f) empty_unit)
      with (include_header f (Nat.iter (S n) (include_header f) empty_unit)).
    rewrite IH. apply include_header_guarded. reflexivity. }
  split; [exact Hiter |].
  rewrite Hiter, include_header_empty. reflexivity.
Qed.

Lemma repeated_inclusion_defines_once_witness :
  (0 < 3)%nat /\
  (Nat.iter 3 (include_header Arduino_credentials) empty_unit =
     include_header Arduino_credentials empty_unit /\
   decls (Nat.iter 3 (include_header Arduino_credentials) empty_unit) =
     body Arduino_credentials).
Proof.
  split; [lia |].
  apply (repeated_inclusion_defines_once Arduino_credentials 3). lia.
Defined.

(** X2: two headers with the same guard macro exclude each other: of the
    two, only the one included first contributes declarations.  The two
    source files both use CREDENTIALS_H. *)
Theorem shared_guard_first_wins (f1 f2 : header_file) :
  guard_macro f1 = guard_macro f2 ->
  decls (include_header f2 (include_header f1 empty_unit)) = body f1 /\
  load (decls (include_header f2 (include_header f1 empty_unit))) = load (body f1).
Proof.
  intros Hg. rewrite (include_header_guarded f1 f2 empty_unit Hg).
  rewrite include_header_empty. split; reflexivity.
Qed.

Lemma shared_guard_first_wins_witness :
  guard_macro Arduino_credentials = guard_macro Sensor_credentials /\
  (decls (include_header Sensor_credentials
            (include_header Arduino_credentials empty_unit)) =
     body Arduino_credentials /\
   load (decls (include_header Sensor_credentials
                  (include_header Arduino_credentials empty_unit))) =
     load (body Arduino_credentials)).
Proof.
  split; [reflexivity |].
  apply (shared_guard_first_wins Arduino_credentials Sensor_credentials).
  reflexivity.
Defined.

(** X3: without the guard a second copy of the declarations is a
    redefinition: a non-empty list of declarations followed by itself
    elaborates from no globals at all, and defines no configuration. *)
Theorem double_definition_rejected (ds : list decl) :
  ds <> [] ->
  (forall g, elaborate g (ds ++ ds) = None) /\ load (ds ++ ds) = None.
Proof.
  intros Hne.
  assert (Hall : forall g, elaborate g (ds ++ ds) = None).
  { intros g. destruct (elaborate g (ds ++ ds)) as [g'|] eqn:He; [| reflexivity].
    exfalso. apply elaborate_NoDup in He.
    rewrite fmap_app in He. apply NoDup_app in He as (_ & Hdisj & _).
    destruct ds as [| d ds']; [congruence |].
    apply (Hdisj (d_name d)); simpl; left. }
  split; [exact Hall |]. unfold load. rewrite Hall. reflexivity.
Qed.

Lemma double_definition_rejected_witness :
  Sensor.credentials_h <> [] /\
  ((forall g, elaborate g (Sensor.credentials_h ++ Sensor.credentials_h) = None) /\
   load (Sensor.credentials_h ++ Sensor.credentials_h) = None).
Proof.
  split; [discriminate |].
  apply (double_definition_rejected Sensor.credentials_h). discriminate.
Defined.

(** ** The order of the declarations *)

Section Order.

Implicit Types (g : gmap string value) (d : decl) (ds : list decl).

(** Two neighbouring declarations can be exchanged. *)
Lemma elaborate_swap g d1 d2 ds :
  elaborate g (d1 :: d2 :: ds) = elaborate g (d2 :: d1 :: ds).
Proof.
  simpl. unfold declare.
  destruct (decide (d_name d1 = d_name d2)) as [Heq | Hne].
  - rewrite <- Heq.
    destruct (g !! d_name d1) eqn:Hg; [reflexivity |].
    destruct (init_value (d_type d1) (d_init d1)),
             (init_value (d_type d2) (d_init d2));
      rewrite ?lookup_insert_eq, ?Hg; reflexivity.
  - destruct (g !! d_name d1) eqn:Hg1, (g !! d_name d2) eqn:Hg2;
      destruct (init_value (d_type d1) (d_init d1)),
               (init_value (d_type d2) (d_init d2));
      rewrite ?lookup_insert_ne, ?Hg1, ?Hg2 by congruence; try reflexivity.
    rewrite insert_insert_ne by congruence. reflexivity.
Qed.

Lemma elaborate_Permutation ds ds' :
  ds ≡ₚ ds' -> forall g, elaborate g ds = elaborate g ds'.
Proof.
  induction 1 as [| d ds ds' _ IH | d1 d2 ds | ds1 ds2 ds3 _ IH1 _ IH2]; intros g.
  - reflexivity.
  - simpl. destruct (declare g d); [apply IH | reflexivity].
  - apply elaborate_swap.
  - rewrite IH1. apply IH2.
Qed.

End Order.

(** X4: the configuration does not depend on the order in which the header
    writes its declarations: two headers that are rearrangements of each
    other load the same record, or both none. *)
Theorem load_order_independent (h h' : list decl) :
  h ≡ₚ h' -> load h = load h'.
Proof.
  intros Hp. unfold load. rewrite (elaborate_Permutation h h' Hp ∅). reflexivity.
Qed.

Lemma load_order_independent_witness :
  Arduino.credentials_h ≡ₚ reverse Arduino.credentials_h /\
  load Arduino.credentials_h = load (reverse Arduino.credentials_h).
Proof.
  assert (Hp : Arduino.credentials_h ≡ₚ reverse Arduino.credentials_h).
  { symmetry. apply reverse_Permutation. }
  split; [exact Hp |].
  apply (load_order_independent Arduino.credentials_h (reverse Arduino.credentials_h)).
  exact Hp.
Defined.

(** ** Stored values and the declared types *)

Section Ranges.

Implicit Types (g : gmap string value) (d : decl) (ds : list decl).

Lemma to_ulong_range z : 0 <= to_ulong z < 2 ^ ulong_bits.
Proof. unfold to_ulong. apply Z.mod_pos_bound. reflexivity. Qed.

Lemma to_int_range z :
  - 2 ^ (int_bits - 1) <= to_int z < 2 ^ (int_bits - 1).
Proof.
  unfold to_int.
  pose proof (Z.mod_pos_bound (z + 2 ^ (int_bits - 1)) (2 ^ int_bits) eq_refl) as Hb.
  change (2 ^ int_bits) with (2 * 2 ^ (int_bits - 1)) in *. lia.
Qed.

Lemma to_ulong_fixed z : to_ulong z = z <-> 0 <= z < 2 ^ ulong_bits.
Proof.
  split.
  - intros <-. apply to_ulong_range.
  - intros Hz. unfold to_ulong. apply Z.mod_small. exact Hz.
Qed.

Lemma to_int_fixed z :
  to_int z = z <-> - 2 ^ (int_bits - 1) <= z < 2 ^ (int_bits - 1).
Proof.
  split.
  - intros <-. apply to_int_range.
  - intros Hz. unfold to_int. rewrite Z.mod_small; [lia |].
    change (2 ^ int_bits) with (2 * 2 ^ (int_bits - 1)). lia.
Qed.

Lemma init_value_in_range t l v : init_value t l = Some v -> in_range v.
Proof.
  destruct t, l; simpl; intros [= <-]; simpl;
    auto using to_ulong_range, to_int_range.
Qed.

Lemma declare_in_range g d g' :
  declare g d = Some g' ->
  map_Forall (fun _ v => in_range v) g -> map_Forall (fun _ v => in_range v) g'.
Proof.
  unfold declare. destruct (g !! d_name d); [discriminate |].
  destruct (init_value (d_type d) (d_init d)) as [v|] eqn:Hi; [| discriminate].
  intros [= <-] Hall. apply map_Forall_insert_2; [| exact Hall].
  eapply init_value_in_range. exact Hi.
Qed.

Lemma elaborate_in_range ds : forall g g',
  elaborate g ds = Some g' ->
  map_Forall (fun _ v => in_range v) g -> map_Forall (fun _ v => in_range v) g'.
Proof.
  induction ds as [| d ds IH]; simpl; intros g g' He Hall.
  - injection He as <-. exact Hall.
  - destruct (declare g d) as [g1|] eqn:Hd; [| discriminate].
    eapply IH; [exact He |]. eapply declare_in_range; eassumption.
Qed.

(** What [read_config] returned was found in the globals. *)
Lemma read_config_lookups g c :
  read_config g = Some c ->
  g !! "ssid" = Some (VStr (networkName c)) /\
  g !! "password" = Some (VStr (networkSecret c)) /\
  g !! "serverBaseUrl" = Some (VStr (serverBaseUrl c)) /\
  g !! "sensorId" = Some (match sensorIdentifier c with
                          | NumericId n => VInt n
                          | LabelId s => VStr s
                          end) /\
  g !! "sampleInterval" = Some (VULong (sampleIntervalMs c)) /\
  g !! "connectionTimeout" = Some (VULong (connectionTimeoutMs c)).
Proof.
  unfold read_config, get_string, get_sensor, get_ulong.
  destruct (g !! "ssid") as [[]|]; try discriminate.
  destruct (g !! "password") as [[]|]; try discriminate.
  destruct (g !! "serverBaseUrl") as [[]|]; try discriminate.
  destruct (g !! "sensorId") as [[]|]; try discriminate.
  all: destruct (g !! "sampleInterval") as [[]|]; try discriminate.
  all: destruct (g !! "connectionTimeout") as [[]|]; try discriminate.
  all: intros [= <-]; simpl; repeat split; reflexivity.
Qed.

(** Globals that contain those of [g] give the same record. *)
Lemma read_config_mono g g' c :
  read_config g = Some c ->
  (forall x v, g !! x = Some v -> g' !! x = Some v) ->
  read_config g' = Some c.
Proof.
  intros Hr Hsub.
  destruct (read_config_lookups g c Hr) as (H1 & H2 & H3 & H4 & H5 & H6).
  apply Hsub in H1, H2, H3, H4, H5, H6.
  unfold read_config, get_string, get_sensor, get_ulong.
  rewrite H1, H2, H3, H4, H5, H6.
  destruct c as [n s u i si ct]; simpl. destruct i; reflexivity.
Qed.

End Ranges.

(** X5: whatever a header writes, the numbers of a loaded configuration lie
    in the ranges of their declared types: both intervals in [0, 2^32), a
    numeric sensor identifier in [-2^31, 2^31). *)
Theorem loaded_values_in_range (h : list decl) (c : DeviceConfig) :
  load h = Some c ->
  0 <= sampleIntervalMs c < 2 ^ 32 /\
  0 <= connectionTimeoutMs c < 2 ^ 32 /\
  match sensorIdentifier c with
  | NumericId n => - 2 ^ 31 <= n < 2 ^ 31
  | LabelId _ => True
  end.
Proof.
  unfold load. destruct (elaborate ∅ h) as [g|] eqn:He; [| discriminate].
  intros Hr.
  assert (Hall : map_Forall (fun _ v => in_range v) g).
  { eapply elaborate_in_range; [exact He |]. apply map_Forall_empty. }
  destruct (read_config_lookups g c Hr) as (_ & _ & _ & H4 & H5 & H6).
  apply Hall in H4, H5, H6.
  repeat split; try apply H5; try apply H6.
  destruct (sensorIdentifier c); [exact H4 | exact I].
Qed.

Lemma loaded_values_in_range_witness :
  load (credentials "A55" "mukava123" "http://192.168.1.11:8000"
          (NumericId 4294967297) (-1) 5000000000) =
    Some {| networkName := "A55"; networkSecret := "mukava123";
            serverBaseUrl := "http://192.168.1.11:8000";
            sensorIdentifier := NumericId 1;
            sampleIntervalMs := 4294967295;
            connectionTimeoutMs := 705032704 |} /\
  (0 <= 4294967295 < 2 ^ 32 /\ 0 <= 705032704 < 2 ^ 32 /\
   - 2 ^ 31 <= 1 < 2 ^ 31).
Proof.
  assert (Hl : load (credentials "A55" "mukava123" "http://192.168.1.11:8000"
                       (NumericId 4294967297) (-1) 5000000000) =
    Some {| networkName := "A55"; networkSecret := "mukava123";
            serverBaseUrl := "http://192.168.1.11:8000";
            sensorIdentifier := NumericId 1;
            sampleIntervalMs := 4294967295;
            connectionTimeoutMs := 705032704 |}).
  { rewrite load_credentials. reflexivity. }
  split; [exact Hl |].
  exact (loaded_values_in_range _ _ Hl).
Defined.

(** X6: a header of the source's shape, with either kind of sensor
    identifier, always loads, and each initialiser is stored as written
    exactly when it fits its declared type: the intervals when they are in
    [0, 2^32), a numeric sensor identifier when it is in [-2^31, 2^31), a
    string sensor identifier always.  Any other number loads too, as a
    different number. *)
Theorem initialiser_kept_iff_fits (n s u : string) (i : SensorIdentifier) (si ct : Z) :
  exists c,
    load (credentials n s u i si ct) = Some c /\
    (sampleIntervalMs c = si <-> 0 <= si < 2 ^ 32) /\
    (connectionTimeoutMs c = ct <-> 0 <= ct < 2 ^ 32) /\
    (sensorIdentifier c = i <->
       match i with
       | NumericId k => - 2 ^ 31 <= k < 2 ^ 31
       | LabelId _ => True
       end).
Proof.
  eexists. split; [apply load_credentials |]. simpl.
  split; [apply to_ulong_fixed |]. split; [apply to_ulong_fixed |].
  destruct i as [k | l]; simpl.
  - rewrite <- (to_int_fixed k). split; [intros [= ->] | intros ->]; congruence.
  - split; [intros _; exact I | reflexivity].
Qed.

(** X7: declarations added after those of a header do not disturb its
    configuration: if the longer header is accepted at all, it loads the
    record the shorter one loads. *)
Theorem extra_declarations_keep_config (h extra : list decl) (c : DeviceConfig) :
  load h = Some c ->
  is_Some (elaborate ∅ (h ++ extra)) ->
  load (h ++ extra) = Some c.
Proof.
  unfold load. intros Hl [g' Hg']. rewrite Hg'.
  rewrite elaborate_app in Hg'.
  destruct (elaborate ∅ h) as [g|] eqn:Hg; [| discriminate].
  eapply read_config_mono; [exact Hl |].
  intros x v. eapply elaborate_frame. exact Hg'.
Qed.

Lemma extra_declarations_keep_config_witness :
  load Sensor.credentials_h =
    Some {| networkName := "servo"; networkSecret := "servoapi24";
            serverBaseUrl := "http://127.0.0.1:8000";
            sensorIdentifier := LabelId "ESP32_001";
            sampleIntervalMs := 5000; connectionTimeoutMs := 10000 |} /\
  is_Some (elaborate ∅ (Sensor.credentials_h ++ [Decl ConstInt "ledPin" (LInt 2)])) /\
  load (Sensor.credentials_h ++ [Decl ConstInt "ledPin" (LInt 2)]) =
    Some {| networkName := "servo"; networkSecret := "servoapi24";
            serverBaseUrl := "http://127.0.0.1:8000";
            sensorIdentifier := LabelId "ESP32_001";
            sampleIntervalMs := 5000; connectionTimeoutMs := 10000 |}.
Proof.
  assert (Hs : is_Some (elaborate ∅
             (Sensor.credentials_h ++ [Decl ConstInt "ledPin" (LInt 2)]))).
  { destruct (elaborate ∅ (Sensor.credentials_h ++ [Decl ConstInt "ledPin" (LInt 2)]))
      as [g|] eqn:He; [exists g; reflexivity |].
    vm_compute in He. discriminate He. }
  split; [apply load_Sensor |]. split; [exact Hs |].
  apply (extra_declarations_keep_config Sensor.credentials_h
           [Decl ConstInt "ledPin" (LInt 2)]); [apply load_Sensor | exact Hs].
Defined.

(** ** What code that uses the constants can change *)

Section Runtime.

Implicit Types (g : gmap string value) (h ds : list decl) (p : list stmt).





End Runtime.

(** The compiler rejects an assignment to an integer constant and a write
    to the characters of a string constant. *)
Example const_objects_not_assignable :
  load_after Arduino.credentials_h [SAssign "sampleInterval" (LInt 0)] = None /\
  load_after Arduino.credentials_h [SAssign "sensorId" (LInt 2)] = None /\
  load_after Arduino.credentials_h [SStoreChar "ssid" 0 "B"] = None.
Proof. repeat split; vm_compute; reflexivity. Qed.



